(** * The glirc sample extension (sample-extension/sample.c)

    A shallow embedding of the three hooks of the sample extension and of
    the part of the C library they call.  The hooks are written in a small
    state-and-undefined-behaviour monad over a world made of the file
    system and one store of C objects (open streams, byte arrays, message
    structs). *)

From Stdlib Require Import Strings.Byte.
From stdpp Require Import base option numbers list strings gmap.

Local Open Scope list_scope.

#[global] Instance byte_eq_decision : EqDecision byte := Byte.byte_eq_dec.

(** ** Pointers and objects *)

(** A C pointer: NULL or the address of an object of the store.  A
    [char *] is the address of the bytes readable from it onwards. *)
Inductive ptr : Type :=
| NULL
| Ptr (a : positive).

#[global] Instance ptr_eq_decision : EqDecision ptr.
Proof. solve_decision. Defined.

(** The mode of an open stream, from the mode string of [fopen]. *)
Inductive open_mode : Type := Mread | Mwrite | Mappend.

#[global] Instance open_mode_eq_decision : EqDecision open_mode.
Proof. solve_decision. Defined.

(** A [FILE] object: the path it was opened on, its mode, the file
    position of the next write, and the bytes printed but not yet
    flushed. *)
Record FILE : Type := mkFILE {
  f_path : string;
  f_mode : open_mode;
  f_pos : nat;
  f_buf : list byte
}.

(** Modelled from the spec: [glirc-api.h] is not part of the sources.  A
    [struct glirc_string] is a [char *] with a [size_t] length. *)
Record glirc_string : Type := mkString {
  str : ptr;
  len : N
}.

(** Modelled from the spec: [glirc-api.h] is not part of the sources.  A
    [struct glirc_message] carries a prefix, a command, parameters and
    tags; the extension only reads [command]. *)
Record glirc_message : Type := mkMessage {
  msg_prefix : glirc_string;
  command : glirc_string;
  params : list glirc_string;
  tags : list (glirc_string * glirc_string)
}.

(** What an address of the store holds.  [OBytes true bs] is a block
    obtained from the allocator, [OBytes false bs] an array owned by
    somebody else (the host's strings). *)
Inductive object : Type :=
| OStream (f : FILE)
| OBytes (heap : bool) (bs : list byte)
| OMsg (m : glirc_message).

(** ** The world *)

(** [w_disk]: the contents of the files, by path.  [w_denied]: the paths
    that cannot be opened for writing.  [w_objs]: the live objects.
    [w_heap_free]: the bytes the allocator can still hand out. *)
Record world : Type := mkWorld {
  w_disk : gmap string (list byte);
  w_denied : gset string;
  w_objs : gmap positive object;
  w_heap_free : nat
}.

Definition set_disk (d : gmap string (list byte)) (w : world) : world :=
  mkWorld d (w_denied w) (w_objs w) (w_heap_free w).

Definition set_objs (o : gmap positive object) (w : world) : world :=
  mkWorld (w_disk w) (w_denied w) o (w_heap_free w).

Definition set_heap_free (n : nat) (w : world) : world :=
  mkWorld (w_disk w) (w_denied w) (w_objs w) n.

Definition file_contents (w : world) (path : string) : list byte :=
  default [] (w_disk w !! path).

(** The address the next object is created at. *)
Definition fresh_addr (w : world) : positive := fresh (dom (w_objs w)).

(** ** The monad of C calls *)

(** A call either returns a value in a new world or has undefined
    behaviour. *)
Inductive outcome (A : Type) : Type :=
| Ok (a : A) (w : world)
| Undef.
Arguments Ok {A} a w.
Arguments Undef {A}.

Definition M (A : Type) : Type := world -> outcome A.

Definition ret {A} (a : A) : M A := fun w => Ok a w.

Definition bind {A B} (c : M A) (k : A -> M B) : M B :=
  fun w => match c w with
           | Ok a w' => k a w'
           | Undef => Undef
           end.

Definition undef {A} : M A := fun _ => Undef.

Notation "x <- c ;; k" := (bind c (fun x => k))
  (at level 100, c at next level, right associativity).

(** ** The C library *)

Definition parse_mode (mode : string) : option open_mode :=
  match mode with
  | "r" => Some Mread
  | "w" => Some Mwrite
  | "a" => Some Mappend
  | _ => None
  end%string.

Definition new_stream (f : FILE) (d : gmap string (list byte)) : M ptr :=
  fun w =>
    let a := fresh_addr w in
    Ok (Ptr a) (set_objs (<[a := OStream f]> (w_objs w)) (set_disk d w)).

(** [fopen(path, mode)].  "w" truncates the file or creates it, "a"
    creates it when missing and writes at its end, "r" needs the file to
    exist.  A failed open returns NULL and changes nothing. *)
Definition fopen (path mode : string) : M ptr :=
  fun w =>
    match parse_mode mode with
    | None => Ok NULL w
    | Some Mread =>
        match w_disk w !! path with
        | Some _ => new_stream (mkFILE path Mread 0 []) (w_disk w) w
        | None => Ok NULL w
        end
    | Some Mwrite =>
        if decide (path ∈ w_denied w) then Ok NULL w
        else new_stream (mkFILE path Mwrite 0 []) (<[path := []]> (w_disk w)) w
    | Some Mappend =>
        if decide (path ∈ w_denied w) then Ok NULL w
        else
          let old := file_contents w path in
          new_stream (mkFILE path Mappend (length old) [])
                     (<[path := old]> (w_disk w)) w
    end.

(** Writing [data] at offset [pos] of a file: the gap past the end, if
    any, reads as zero bytes. *)
Definition pwrite (content : list byte) (pos : nat) (data : list byte)
  : list byte :=
  take pos content ++ replicate (pos - length content) x00
    ++ data ++ drop (pos + length data) content.

(** Flushing the stream at [a]: the pending bytes go to the file, at the
    stream's position, or at the end of the file in append mode.  With
    nothing pending the file is not touched. *)
Definition flush_stream (a : positive) (f : FILE) (w : world) : world :=
  match f_buf f with
  | [] => w
  | _ :: _ =>
      let old := file_contents w (f_path f) in
      match f_mode f with
      | Mread => w
      | Mwrite =>
          set_objs (<[a := OStream (mkFILE (f_path f) Mwrite
                                       (f_pos f + length (f_buf f)) [])]>
                      (w_objs w))
            (set_disk (<[f_path f := pwrite old (f_pos f) (f_buf f)]>
                         (w_disk w)) w)
      | Mappend =>
          set_objs (<[a := OStream (mkFILE (f_path f) Mappend
                                       (length old + length (f_buf f)) [])]>
                      (w_objs w))
            (set_disk (<[f_path f := old ++ f_buf f]> (w_disk w)) w)
      end
  end.

Definition flush_object (a : positive) (o : object) (w : world) : world :=
  match o with
  | OStream f => flush_stream a f w
  | _ => w
  end.

(** [fflush(file)]; [fflush(NULL)] flushes every open stream. *)
Definition fflush (file : ptr) : M Z :=
  fun w =>
    match file with
    | NULL => Ok 0%Z (map_fold flush_object w (w_objs w))
    | Ptr a =>
        match w_objs w !! a with
        | Some (OStream f) => Ok 0%Z (flush_stream a f w)
        | _ => Undef
        end
    end.

(** [fclose(file)]: flush, then the stream is gone. *)
Definition fclose (file : ptr) : M Z :=
  fun w =>
    match file with
    | NULL => Undef
    | Ptr a =>
        match w_objs w !! a with
        | Some (OStream f) =>
            let w' := flush_stream a f w in
            Ok 0%Z (set_objs (delete a (w_objs w')) w')
        | _ => Undef
        end
    end.

(** The bytes of the C string starting an array: those before its first
    NUL.  [None] when the array has no NUL (the read runs off its end). *)
Fixpoint c_string (bs : list byte) : option (list byte) :=
  match bs with
  | [] => None
  | c :: rest =>
      if decide (c = x00) then Some []
      else match c_string rest with
           | Some s => Some (c :: s)
           | None => None
           end
  end.

Definition read_string (p : ptr) : M (list byte) :=
  fun w =>
    match p with
    | NULL => Undef
    | Ptr a =>
        match w_objs w !! a with
        | Some (OBytes _ bs) =>
            match c_string bs with
            | Some s => Ok s w
            | None => Undef
            end
        | _ => Undef
        end
    end.

(** The output of a format: [%s] prints the C string the next argument
    points to, [%%] a percent sign, any other byte itself.  Other
    conversions are outside the model. *)
Fixpoint format (fmt : list byte) (args : list ptr) : M (list byte) :=
  match fmt with
  | [] => ret []
  | c :: rest =>
      if decide (c = x25) then
        match rest with
        | d :: rest' =>
            if decide (d = x73) then
              match args with
              | p :: args' =>
                  s <- read_string p ;;
                  t <- format rest' args' ;;
                  ret (s ++ t)
              | [] => undef
              end
            else if decide (d = x25) then
              t <- format rest' args ;;
              ret (x25 :: t)
            else undef
        | [] => undef
        end
      else
        t <- format rest args ;;
        ret (c :: t)
  end.

(** Printing bytes on a stream: they are appended to its buffer, which
    holds any number of bytes until the next flush.  On a stream opened
    for reading the call fails and writes nothing.  Writes to the file
    system themselves do not fail in this model. *)
Definition fputs_bytes (file : ptr) (data : list byte) : M Z :=
  fun w =>
    match file with
    | NULL => Undef
    | Ptr a =>
        match w_objs w !! a with
        | Some (OStream f) =>
            match f_mode f with
            | Mread => Ok (-1)%Z w
            | md =>
                Ok (Z.of_nat (length data))
                   (set_objs (<[a := OStream (mkFILE (f_path f) md (f_pos f)
                                                (f_buf f ++ data))]>
                                (w_objs w)) w)
            end
        | _ => Undef
        end
    end.

(** [fprintf(file, fmt, args...)]. *)
Definition fprintf (file : ptr) (fmt : list byte) (args : list ptr) : M Z :=
  out <- format fmt args ;;
  fputs_bytes file out.

(** [malloc] of a block initialised with [bs]: NULL when the allocator
    has fewer than [length bs] bytes left. *)
Definition alloc_bytes (bs : list byte) : M ptr :=
  fun w =>
    if decide (length bs ≤ w_heap_free w) then
      let a := fresh_addr w in
      Ok (Ptr a)
         (set_heap_free (w_heap_free w - length bs)
            (set_objs (<[a := OBytes true bs]> (w_objs w)) w))
    else Ok NULL w.

(** [strnlen(s, maxlen)] on the bytes readable from [s]: the index of
    the first NUL among the first [maxlen] bytes, or [maxlen].  [None]
    when the scan leaves the array. *)
Fixpoint strnlen (s : list byte) (maxlen : nat) {struct maxlen}
  : option nat :=
  match maxlen with
  | O => Some O
  | S n =>
      match s with
      | [] => None
      | c :: rest =>
          if decide (c = x00) then Some O
          else match strnlen rest n with
               | Some k => Some (S k)
               | None => None
               end
      end
  end.

(** [strndup(s, n)]: a fresh NUL-terminated copy of the first
    [strnlen(s, n)] bytes of [s], or NULL when the allocation fails. *)
Definition strndup (s : ptr) (n : N) : M ptr :=
  fun w =>
    match s with
    | NULL => Undef
    | Ptr a =>
        match w_objs w !! a with
        | Some (OBytes _ bs) =>
            match strnlen bs (N.to_nat n) with
            | Some k => alloc_bytes (take k bs ++ [x00]) w
            | None => Undef
            end
        | _ => Undef
        end
    end.

(** [free(p)]: [free(NULL)] does nothing; anything but a live allocated
    block is undefined. *)
Definition free (p : ptr) : M unit :=
  fun w =>
    match p with
    | NULL => Ok tt w
    | Ptr a =>
        match w_objs w !! a with
        | Some (OBytes true bs) =>
            Ok tt (set_heap_free (w_heap_free w + length bs)
                     (set_objs (delete a (w_objs w)) w))
        | _ => Undef
        end
    end.

(** Reading the struct behind a [struct glirc_message *]. *)
Definition load_message (msg : ptr) : M glirc_message :=
  fun w =>
    match msg with
    | NULL => Undef
    | Ptr a =>
        match w_objs w !! a with
        | Some (OMsg m) => Ok m w
        | _ => Undef
        end
    end.

(** ** The extension *)

Definition output_path : string := "sample-output.txt"%string.

(** The format ["%s\n"]. *)
Definition fmt_line : list byte := [x25; x73; x0a].

Definition start : M ptr :=
  file <- fopen output_path "w"%string ;;
  ret file.

Definition stop (S : ptr) : M unit :=
  let file := S in
  _ <- fclose file ;;
  ret tt.

Definition process_message (S : ptr) (msg : ptr) : M unit :=
  let file := S in
  m <- load_message msg ;;
  cmd <- strndup (str (command m)) (len (command m)) ;;
  _ <- fprintf file fmt_line [cmd] ;;
  _ <- fflush file ;;
  free cmd.

(** The value of a field of [struct glirc_extension]: a pointer to a
    function of the hook's type. *)
Inductive hook : Type :=
| start_hook (fn : M ptr)
| stop_hook (fn : ptr -> M unit)
| process_message_hook (fn : ptr -> ptr -> M unit).

(** The struct [extension], as its designated initializer gives it: the
    named fields hold the functions, every field the initializer does not
    name is a null pointer (no entry). *)
Definition extension : gmap string hook :=
  list_to_map [ ("start"%string, start_hook start);
                ("stop"%string, stop_hook stop);
                ("process_message"%string,
                  process_message_hook process_message) ].

(** Modelled from the spec: the host is not part of the sources.  It
    hands the incoming messages to the message hook one after the
    other, with the state [start] returned. *)
Fixpoint process_all (S : ptr) (msgs : list ptr) : M unit :=
  match msgs with
  | [] => ret tt
  | msg :: rest =>
      _ <- process_message S msg ;;
      process_all S rest
  end.

(** ** Vocabulary of the statements *)

(** The bytes of [name] that precede its first NUL byte; all of [name]
    when it has none. *)
Fixpoint before_nul (name : list byte) : list byte :=
  match name with
  | [] => []
  | c :: rest => if decide (c = x00) then [] else c :: before_nul rest
  end.

(** [h] is a log handle as the hooks keep it between calls: a stream
    opened for writing on the log file, with nothing pending, positioned
    at the end of the file. *)
Record log_handle (w : world) (h : positive) (f : FILE) : Prop := {
  lh_open : w_objs w !! h = Some (OStream f);
  lh_path : f_path f = output_path;
  lh_mode : f_mode f = Mwrite;
  lh_buf : f_buf f = [];
  lh_pos : f_pos f = length (file_contents w output_path)
}.

(** [p] points to the message [m] whose command is [len] readable bytes
    at the start of the array [bs], and the allocator can hold a copy of
    the command. *)
Record incoming (w : world) (p : positive) (m : glirc_message)
    (bs : list byte) : Prop := {
  in_msg : w_objs w !! p = Some (OMsg m);
  in_str : exists a own,
      str (command m) = Ptr a /\ w_objs w !! a = Some (OBytes own bs);
  in_len : N.to_nat (len (command m)) <= length bs;
  in_heap : N.to_nat (len (command m)) + 1 <= w_heap_free w
}.

(** The command name of [m]: the first [len] bytes at [str]. *)
Definition command_name (m : glirc_message) (bs : list byte) : list byte :=
  take (N.to_nat (len (command m))) bs.

(** The message and the bytes of its command that [msg] leads to. *)
Definition message_at (w : world) (msg : ptr)
  : option (glirc_message * list byte) :=
  match msg with
  | NULL => None
  | Ptr p =>
      match w_objs w !! p with
      | Some (OMsg m) =>
          match str (command m) with
          | NULL => None
          | Ptr a =>
              match w_objs w !! a with
              | Some (OBytes _ bs) => Some (m, bs)
              | _ => None
              end
          end
      | _ => None
      end
  end.

(** The line a message stands for in the log: its command name up to
    the first NUL byte, and a newline. *)
Definition logged_line (w : world) (msg : ptr) : list byte :=
  match message_at w msg with
  | Some (m, bs) => before_nul (command_name m bs) ++ [x0a]
  | None => []
  end.

(** [msg] is a message the host can deliver in [w]. *)
Definition deliverable (w : world) (msg : ptr) : Prop :=
  exists p m bs, msg = Ptr p /\ incoming w p m bs.

(** The world after the stream [f] at [h] has written [data] through to
    its file. *)
Definition written (w : world) (h : positive) (f : FILE) (data : list byte)
  : world :=
  set_objs
    (<[h := OStream (mkFILE (f_path f) Mwrite (f_pos f + length data) [])]>
       (w_objs w))
    (set_disk
       (<[f_path f := pwrite (file_contents w (f_path f)) (f_pos f) data]>
          (w_disk w)) w).

(** The message hook appends the whole command name and a newline to the
    log. *)
Definition appends_command_name (w : world) (h p : positive)
    (m : glirc_message) (bs : list byte) : Prop :=
  exists w',
    process_message (Ptr h) (Ptr p) w = Ok tt w' /\
    file_contents w' output_path
    = file_contents w output_path ++ command_name m bs ++ [x0a].

(** What a call on the log handle [h] leaves alone in going from [w] to
    [w']: every object but the stream, every file but the log, the
    denied paths and the allocator. *)
Record host_frame (w w' : world) (h : positive) : Prop := {
  hf_objs : forall a, a <> h -> w_objs w' !! a = w_objs w !! a;
  hf_disk : forall path,
      path <> output_path -> w_disk w' !! path = w_disk w !! path;
  hf_denied : w_denied w' = w_denied w;
  hf_heap : w_heap_free w' = w_heap_free w
}.

(** The world where, in addition, the log file cannot be opened. *)
Definition deny_log (w : world) : world :=
  mkWorld (w_disk w) ({[ output_path ]} ∪ w_denied w) (w_objs w)
          (w_heap_free w).

(** The world after a successful [start]: the log file is empty and a
    new stream is open on it. *)
Definition log_opened (w : world) : world :=
  set_objs (<[fresh_addr w := OStream (mkFILE output_path Mwrite 0 [])]>
              (w_objs w))
    (set_disk (<[output_path := []]> (w_disk w)) w).

(** The world after the stream at [h] is closed. *)
Definition closed (w : world) (h : positive) : world :=
  set_objs (delete h (w_objs w)) w.

(** ** Sample worlds *)

Module Sample.

(** "PING" and "PI\0NG". *)
Definition ping : list byte := ["P"; "I"; "N"; "G"]%byte.
Definition pi_nul_ng : list byte := ["P"; "I"; x00; "N"; "G"]%byte.
Definition nick : list byte := ["i"; "r"; "c"; "."]%byte.

Definition msg_ping : glirc_message :=
  mkMessage (mkString (Ptr 5) 4) (mkString (Ptr 3) 4) [] [].
Definition msg_nul : glirc_message :=
  mkMessage (mkString NULL 0) (mkString (Ptr 4) 5) [mkString (Ptr 5) 3] [].

(** The host's objects before the extension is started; the log file
    holds a line of an earlier run. *)
Definition host_objs : gmap positive object :=
  list_to_map [ (1%positive, OMsg msg_ping);
                (2%positive, OMsg msg_nul);
                (3%positive, OBytes false ping);
                (4%positive, OBytes false pi_nul_ng);
                (5%positive, OBytes false nick) ].

Definition w0 : world :=
  mkWorld {[ output_path := ["O"; "L"; "D"; x0a]%byte ]} ∅ host_objs 64.

(** The same host where the log file cannot be opened. *)
Definition w_denied0 : world :=
  mkWorld ∅ {[ output_path ]} host_objs 64.

Definition log0 : FILE := mkFILE output_path Mwrite 0 [].

(** [w0] after [start]: the stream is at address 6. *)
Definition w1 : world :=
  mkWorld {[ output_path := [] ]} ∅
          (<[6%positive := OStream log0]> host_objs) 64.

End Sample.

(** ** Further vocabulary *)

(** The number of newline bytes in [l]. *)
Definition newlines (l : list byte) : nat :=
  length (filter (fun c => c = x0a) l).

(** [msg] can be delivered in [w] and its command name holds no newline
    byte. *)
Definition plain (w : world) (msg : ptr) : Prop :=
  exists p m bs,
    msg = Ptr p /\ incoming w p m bs /\ x0a ∉ command_name m bs.

Module Overlong.

(** A host whose messages state a length of 9 for the arrays "PI\0NG"
    (a NUL inside) and "PING" (4 bytes, no NUL). *)
Definition msg_capped : glirc_message :=
  mkMessage (mkString NULL 0) (mkString (Ptr 2) 9) [] [].
Definition msg_overrun : glirc_message :=
  mkMessage (mkString NULL 0) (mkString (Ptr 4) 9) [] [].

Definition w : world :=
  mkWorld {[ output_path := [] ]} ∅
          (list_to_map [ (1%positive, OMsg msg_capped);
                         (2%positive, OBytes false Sample.pi_nul_ng);
                         (3%positive, OMsg msg_overrun);
                         (4%positive, OBytes false Sample.ping);
                         (5%positive, OStream Sample.log0) ])
          64.

End Overlong.

(** ** C strings *)

Section CStrings.

Implicit Types (bs name s : list byte) (n k : nat).

Lemma before_nul_prefix name : before_nul name `prefix_of` name.
Proof.
  induction name as [|c rest IH]; simpl; [done|].
  case_decide; [apply prefix_nil | by apply prefix_cons].
Qed.

Lemma before_nul_no_nul name : x00 ∉ before_nul name.
Proof.
  induction name as [|c rest IH]; simpl; [by apply not_elem_of_nil|].
  case_decide; [by apply not_elem_of_nil|].
  apply not_elem_of_cons; split; [by intros Heq; apply H | exact IH].
Qed.

Lemma before_nul_id name : x00 ∉ name -> before_nul name = name.
Proof.
  induction name as [|c rest IH]; simpl; [done|].
  rewrite not_elem_of_cons; intros [Hc Hrest].
  case_decide; [congruence | by rewrite IH].
Qed.

(** Where the command name has a NUL byte, the cut is at the first. *)
Lemma before_nul_stops name :
  x00 ∈ name -> name !! (length (before_nul name)) = Some x00.
Proof.
  induction name as [|c rest IH]; simpl.
  - by intros ?%elem_of_nil.
  - case_decide as Hc; [by subst c|].
    rewrite elem_of_cons; intros [Heq | Hin]; [congruence | by apply IH].
Qed.

Lemma strnlen_take bs n :
  n <= length bs ->
  strnlen bs n = Some (length (before_nul (take n bs))).
Proof.
  revert bs; induction n as [|n IH]; intros bs Hn; [done|].
  destruct bs as [|c rest]; simpl in *; [lia|].
  case_decide; [done|].
  rewrite IH by lia. done.
Qed.

Lemma take_before_nul bs n :
  take (length (before_nul (take n bs))) bs = before_nul (take n bs).
Proof.
  destruct (before_nul_prefix (take n bs)) as [r1 Hr1].
  destruct (prefix_take bs n) as [r2 Hr2].
  rewrite Hr2 at 2. rewrite Hr1 at 2.
  rewrite <- app_assoc. apply take_app_length.
Qed.

Lemma c_string_terminated s rest :
  x00 ∉ s -> c_string (s ++ x00 :: rest) = Some s.
Proof.
  induction s as [|c s IH]; simpl; intros Hs.
  - done.
  - rewrite not_elem_of_cons in Hs. destruct Hs as [Hc Hs].
    case_decide; [congruence|]. by rewrite IH.
Qed.

End CStrings.

(** ** One call of each library function *)

Section Calls.

Context (w : world).

Lemma fresh_addr_free : w_objs w !! fresh_addr w = None.
Proof. unfold fresh_addr. apply not_elem_of_dom. apply is_fresh. Qed.

Lemma fresh_addr_ne a o : w_objs w !! a = Some o -> a <> fresh_addr w.
Proof. intros Ha ->. rewrite fresh_addr_free in Ha. discriminate. Qed.

Lemma bind_Ok {A B} (c : M A) (k : A -> M B) a w' :
  c w = Ok a w' -> (x <- c ;; k x) w = k a w'.
Proof. unfold bind. by intros ->. Qed.

Lemma bind_Undef {A B} (c : M A) (k : A -> M B) :
  c w = Undef -> (x <- c ;; k x) w = Undef.
Proof. unfold bind. by intros ->. Qed.

Lemma load_message_Ok p m :
  w_objs w !! p = Some (OMsg m) -> load_message (Ptr p) w = Ok m w.
Proof. unfold load_message. by intros ->. Qed.

Lemma strndup_Ok a own bs n :
  w_objs w !! a = Some (OBytes own bs) ->
  N.to_nat n <= length bs ->
  N.to_nat n + 1 <= w_heap_free w ->
  let cut := before_nul (take (N.to_nat n) bs) in
  strndup (Ptr a) n w
  = Ok (Ptr (fresh_addr w))
       (set_heap_free (w_heap_free w - (length cut + 1))
          (set_objs (<[fresh_addr w := OBytes true (cut ++ [x00])]>
                       (w_objs w)) w)).
Proof.
  intros Ha Hn Hheap cut. unfold strndup. rewrite Ha.
  rewrite strnlen_take by done. rewrite take_before_nul. fold cut.
  assert (length cut <= N.to_nat n) as Hcut.
  { etrans; [apply prefix_length, before_nul_prefix|].
    rewrite length_take. lia. }
  unfold alloc_bytes. rewrite length_app. simpl.
  case_decide; [done | lia].
Qed.

Lemma fprintf_line_Ok h f c own s rest :
  w_objs w !! h = Some (OStream f) ->
  f_mode f = Mwrite ->
  w_objs w !! c = Some (OBytes own (s ++ x00 :: rest)) ->
  x00 ∉ s ->
  fprintf (Ptr h) fmt_line [Ptr c] w
  = Ok (Z.of_nat (length (s ++ [x0a])))
       (set_objs (<[h := OStream (mkFILE (f_path f) Mwrite (f_pos f)
                                    (f_buf f ++ s ++ [x0a]))]>
                    (w_objs w)) w).
Proof.
  intros Hh Hmode Hc Hs. unfold fprintf, fmt_line.
  assert (format [x25; x73; x0a] [Ptr c] w = Ok (s ++ [x0a]) w) as Hfmt.
  { simpl. unfold bind, read_string. rewrite Hc.
    by rewrite c_string_terminated. }
  rewrite (bind_Ok _ _ _ _ Hfmt).
  unfold fputs_bytes. by rewrite Hh, Hmode.
Qed.

Lemma flush_stream_write h f :
  f_mode f = Mwrite -> f_buf f <> [] ->
  flush_stream h f w = written w h f (f_buf f).
Proof.
  intros Hmode Hbuf. unfold flush_stream.
  destruct (f_buf f); [done|]. by rewrite Hmode.
Qed.

Lemma flush_stream_idle h f : f_buf f = [] -> flush_stream h f w = w.
Proof. unfold flush_stream. by intros ->. Qed.

Lemma fflush_Ok h f :
  w_objs w !! h = Some (OStream f) ->
  fflush (Ptr h) w = Ok 0%Z (flush_stream h f w).
Proof. unfold fflush. by intros ->. Qed.

Lemma free_Ok c bs :
  w_objs w !! c = Some (OBytes true bs) ->
  free (Ptr c) w
  = Ok tt (set_heap_free (w_heap_free w + length bs)
             (set_objs (delete c (w_objs w)) w)).
Proof. unfold free. by intros ->. Qed.

End Calls.

(** ** One call of the message hook *)

Lemma process_message_run w h f p m bs :
  w_objs w !! h = Some (OStream f) ->
  f_mode f = Mwrite ->
  incoming w p m bs ->
  process_message (Ptr h) (Ptr p) w
  = Ok tt (written w h f
             (f_buf f ++ before_nul (command_name m bs) ++ [x0a])).
Proof.
  intros Hh Hmode [Hp (a & own & Hstr & Ha) Hlen Hheap].
  unfold process_message, command_name.
  set (cut := before_nul (take (N.to_nat (len (command m))) bs)).
  set (c := fresh_addr w).
  assert (h <> c) as Hhc by (by eapply fresh_addr_ne).
  rewrite (bind_Ok _ _ _ _ _ (load_message_Ok w p m Hp)).
  rewrite Hstr.
  rewrite (bind_Ok _ _ _ _ _ (strndup_Ok w a own bs _ Ha Hlen Hheap)).
  fold cut c.
  erewrite bind_Ok; last first.
  { eapply (fprintf_line_Ok _ h f c true cut []); simpl.
    - by rewrite lookup_insert_ne.
    - done.
    - by rewrite lookup_insert_eq.
    - apply before_nul_no_nul. }
  erewrite bind_Ok; last first.
  { apply fflush_Ok. simpl. by rewrite lookup_insert_eq. }
  rewrite flush_stream_write; [|done|simpl; by destruct (f_buf f), cut].
  erewrite free_Ok; last first.
  { simpl. rewrite !lookup_insert_ne by done. by rewrite lookup_insert_eq. }
  f_equal.
  unfold written, set_heap_free, set_objs, set_disk, file_contents; simpl.
  f_equal.
  - rewrite insert_insert_eq, delete_insert_ne by done.
    rewrite delete_insert_eq. f_equal. apply delete_id, fresh_addr_free.
  - assert (length cut <= N.to_nat (len (command m))).
    { etrans; [apply prefix_length, before_nul_prefix|].
      rewrite length_take. lia. }
    rewrite length_app. simpl. lia.
Qed.


(** ** The log handle between calls *)

Lemma pwrite_at_end content data :
  pwrite content (length content) data = content ++ data.
Proof.
  unfold pwrite. rewrite firstn_all, Nat.sub_diag. simpl.
  rewrite drop_ge by lia. by rewrite app_nil_r.
Qed.

Section LogHandle.

Context (w : world) (h : positive) (f : FILE).
Hypothesis Hlog : log_handle w h f.

Lemma written_contents line :
  file_contents (written w h f line) output_path
  = file_contents w output_path ++ line.
Proof.
  destruct Hlog as [_ Hpath _ _ Hpos].
  unfold written, file_contents at 1; simpl.
  rewrite Hpath, lookup_insert_eq, Hpos. simpl. apply pwrite_at_end.
Qed.

Lemma written_other_files line path :
  path <> output_path ->
  w_disk (written w h f line) !! path = w_disk w !! path.
Proof.
  destruct Hlog as [_ Hpath _ _ _]. intros Hne. simpl.
  rewrite Hpath. by rewrite lookup_insert_ne.
Qed.

Lemma written_other_objects line a :
  a <> h -> w_objs (written w h f line) !! a = w_objs w !! a.
Proof. intros Hne. simpl. by rewrite lookup_insert_ne. Qed.

Lemma written_log_handle line :
  log_handle (written w h f line) h
    (mkFILE output_path Mwrite (f_pos f + length line) []).
Proof.
  assert (Hc := written_contents line).
  destruct Hlog as [_ Hpath _ _ Hpos].
  split; simpl; try done.
  - by rewrite lookup_insert_eq, Hpath.
  - rewrite Hc, length_app. lia.
Qed.

Lemma written_incoming line p m bs :
  incoming w p m bs -> incoming (written w h f line) p m bs.
Proof.
  destruct Hlog as [Hh _ _ _ _].
  intros [Hp (a & own & Hstr & Ha) Hlen Hheap].
  split; try done.
  - rewrite written_other_objects; [done | congruence].
  - exists a, own. split; [done|].
    rewrite written_other_objects; [done | congruence].
Qed.

Lemma written_deliverable line msg :
  deliverable w msg -> deliverable (written w h f line) msg.
Proof.
  intros (p & m & bs & -> & Hin).
  exists p, m, bs. split; [done | by apply written_incoming].
Qed.

Lemma written_logged_line line msg :
  deliverable w msg ->
  logged_line (written w h f line) msg = logged_line w msg.
Proof.
  destruct Hlog as [Hh _ _ _ _].
  intros (p & m & bs & -> & [Hp (a & own & Hstr & Ha) _ _]).
  unfold logged_line, message_at.
  rewrite !written_other_objects by congruence.
  by rewrite Hp, Hstr, written_other_objects by congruence.
Qed.

(** The message hook on a log handle. *)
Lemma process_message_on_log p m bs :
  incoming w p m bs ->
  process_message (Ptr h) (Ptr p) w
  = Ok tt (written w h f (before_nul (command_name m bs) ++ [x0a])).
Proof.
  intros Hin. destruct Hlog as [Hh _ Hmode Hbuf _].
  rewrite (process_message_run w h f p m bs Hh Hmode Hin).
  by rewrite Hbuf.
Qed.

Lemma logged_line_incoming p m bs :
  incoming w p m bs ->
  logged_line w (Ptr p) = before_nul (command_name m bs) ++ [x0a].
Proof.
  intros [Hp (a & own & Hstr & Ha) _ _].
  unfold logged_line, message_at. by rewrite Hp, Hstr, Ha.
Qed.

(** [stop] on a log handle. *)
Lemma stop_log : stop (Ptr h) w = Ok tt (closed w h).
Proof.
  destruct Hlog as [Hh _ _ Hbuf _].
  unfold stop, bind, fclose. rewrite Hh.
  by rewrite flush_stream_idle.
Qed.

End LogHandle.

(** ** [start] *)

Lemma start_fopen w : start w = fopen output_path "w" w.
Proof. unfold start, bind, ret. by destruct (fopen _ _ w). Qed.

Lemma start_denied w :
  output_path ∈ w_denied w -> start w = Ok NULL w.
Proof.
  intros Hd. rewrite start_fopen. unfold fopen; simpl.
  by rewrite decide_True.
Qed.

Lemma start_allowed w :
  output_path ∉ w_denied w ->
  start w = Ok (Ptr (fresh_addr w)) (log_opened w).
Proof.
  intros Hd. rewrite start_fopen. unfold fopen; simpl.
  by rewrite decide_False.
Qed.

(** A successful [start] is the allowed case. *)
Lemma start_Ok_inv w h w' :
  start w = Ok (Ptr h) w' -> h = fresh_addr w /\ w' = log_opened w.
Proof.
  destruct (decide (output_path ∈ w_denied w)) as [Hd|Hd].
  - rewrite start_denied by done. discriminate.
  - rewrite start_allowed by done. by intros [= <- <-].
Qed.

Lemma log_opened_handle w :
  log_handle (log_opened w) (fresh_addr w) (mkFILE output_path Mwrite 0 []).
Proof.
  split; simpl; try done.
  - by rewrite lookup_insert_eq.
  - unfold file_contents; simpl. by rewrite lookup_insert_eq.
Qed.

(** ** A run of messages *)

Lemma host_frame_refl w h : host_frame w w h.
Proof. by split. Qed.

Lemma host_frame_trans w1 w2 w3 h :
  host_frame w1 w2 h -> host_frame w2 w3 h -> host_frame w1 w3 h.
Proof.
  intros [Ho1 Hd1 Hn1 Hh1] [Ho2 Hd2 Hn2 Hh2]. split.
  - intros a Ha. by rewrite Ho2, Ho1.
  - intros path Hp. by rewrite Hd2, Hd1.
  - congruence.
  - congruence.
Qed.

Lemma written_frame w h f line :
  log_handle w h f -> host_frame w (written w h f line) h.
Proof.
  intros Hlog. split; [| |done|done].
  - intros a Ha. by apply written_other_objects.
  - intros path Hp. by eapply written_other_files.
Qed.

(** A message that can be delivered stays so, and stands for the same
    line, across calls on the log handle. *)
Lemma incoming_frame w w' h f p m bs :
  w_objs w !! h = Some (OStream f) ->
  host_frame w w' h ->
  incoming w p m bs -> incoming w' p m bs.
Proof.
  intros Hh [Ho _ _ Hheap] [Hp (a & own & Hstr & Ha) Hlen Hfree].
  split.
  - rewrite Ho; [done | congruence].
  - exists a, own. split; [done|]. rewrite Ho; [done | congruence].
  - done.
  - by rewrite Hheap.
Qed.

Lemma process_all_log msgs : forall w h f,
  log_handle w h f ->
  Forall (deliverable w) msgs ->
  exists w' f',
    process_all (Ptr h) msgs w = Ok tt w' /\
    log_handle w' h f' /\
    host_frame w w' h /\
    file_contents w' output_path
    = file_contents w output_path ++ concat (map (logged_line w) msgs).
Proof.
  induction msgs as [|msg rest IH]; intros w h f Hlog Hall.
  - exists w, f. simpl. rewrite app_nil_r.
    split; [done|]. split; [done|]. split; [apply host_frame_refl | done].
  - apply Forall_cons in Hall as [(p & m & bs & -> & Hin) Hrest].
    set (line := before_nul (command_name m bs) ++ [x0a]).
    destruct (IH (written w h f line) h _ (written_log_handle w h f Hlog line))
      as (w' & f' & Hrun & Hlog' & Hframe & Hfile).
    { eapply Forall_impl; [exact Hrest|].
      intros msg. by apply written_deliverable. }
    exists w', f'. split; [|split; [done|split]].
    + simpl.
      by rewrite (bind_Ok _ _ _ _ _
                    (process_message_on_log w h f Hlog p m bs Hin)).
    + eapply host_frame_trans; [by apply written_frame | done].
    + rewrite Hfile, (written_contents w h f Hlog). simpl.
      rewrite (logged_line_incoming w p m bs Hin). fold line.
      rewrite <- !app_assoc. do 2 f_equal. f_equal.
      apply Forall_fmap_ext_1. eapply Forall_impl; [exact Hrest|].
      intros msg. by apply written_logged_line.
Qed.

(** ** Failures the hooks do not look at *)

(** X8: the result of [strndup] is not checked.  When the allocator has
    nothing left, [strndup] returns NULL and the message hook prints it
    with [%s]: the call is undefined behaviour, whatever the state. *)
Lemma process_message_out_of_memory S w p m a own bs :
  w_objs w !! p = Some (OMsg m) ->
  str (command m) = Ptr a ->
  w_objs w !! a = Some (OBytes own bs) ->
  N.to_nat (len (command m)) <= length bs ->
  w_heap_free w = 0 ->
  process_message S (Ptr p) w = Undef.
Proof.
  intros Hp Hstr Ha Hlen Hheap. unfold process_message.
  rewrite (bind_Ok _ _ _ _ _ (load_message_Ok w p m Hp)), Hstr.
  assert (strndup (Ptr a) (len (command m)) w = Ok NULL w) as Hdup.
  { unfold strndup. rewrite Ha, strnlen_take by done.
    unfold alloc_bytes. rewrite length_app, Hheap. simpl.
    case_decide; [lia | done]. }
  by rewrite (bind_Ok _ _ _ _ _ Hdup).
Qed.

(** In append mode the file keeps what it held: it is the mode "w" of
    [start] that empties the log. *)
Lemma fopen_append_keeps w path :
  path ∉ w_denied w ->
  exists h w',
    fopen path "a" w = Ok (Ptr h) w' /\
    file_contents w' path = file_contents w path.
Proof.
  intros Hd. unfold fopen; simpl. rewrite decide_False by done.
  do 2 eexists. split; [reflexivity|].
  unfold file_contents at 1; simpl. by rewrite lookup_insert_eq.
Qed.

(** ** The sample worlds *)

(** Discharges [log_handle] and [incoming] on a sample world by
    evaluation. *)
Ltac sample_world :=
  lazymatch goal with
  | |- log_handle _ _ _ => split; reflexivity
  | |- incoming _ _ _ _ =>
      split;
      [ reflexivity
      | eexists _, _; split; reflexivity
      | vm_compute; lia
      | vm_compute; lia ]
  end.

Example sample_start : start Sample.w0 = Ok (Ptr 6) Sample.w1.
Proof. vm_compute. reflexivity. Qed.

(** ** The claims *)

(** C1, as the specification words it, fails: on a command name that
    holds a NUL byte the message hook does not append the whole command
    name.  With the command "PI\0NG" of length 5 delivered on the handle
    [start] returned, the log receives "PI\n". *)
Lemma appends_command_name_counterexample :
  log_handle Sample.w1 6 Sample.log0 /\
  incoming Sample.w1 2 Sample.msg_nul Sample.pi_nul_ng /\
  ~ appends_command_name Sample.w1 6 2 Sample.msg_nul Sample.pi_nul_ng.
Proof.
  split; [sample_world|]. split; [sample_world|].
  intros (w' & Hrun & Hfile).
  vm_compute in Hrun. injection Hrun as <-.
  vm_compute in Hfile. discriminate.
Qed.

(** C1 (amended): for every incoming message, [process_message] appends
    to the file handle that [start] returned the command name up to its
    first NUL byte, which is the whole command name when it holds no NUL
    byte, followed by a single newline character; the rest of the message
    (prefix, parameters, tags) contributes nothing to the output. *)
Theorem process_message_logs_command w h f p m bs :
  log_handle w h f ->
  incoming w p m bs ->
  exists w',
    process_message (Ptr h) (Ptr p) w = Ok tt w' /\
    file_contents w' output_path
    = file_contents w output_path
        ++ before_nul (command_name m bs) ++ [x0a] /\
    (x00 ∉ command_name m bs ->
     file_contents w' output_path
     = file_contents w output_path ++ command_name m bs ++ [x0a]) /\
    (forall m', command m' = command m ->
       exists w'',
         process_message (Ptr h) (Ptr p)
           (set_objs (<[p := OMsg m']> (w_objs w)) w) = Ok tt w'' /\
         w_disk w'' = w_disk w').
Proof.
  intros Hlog Hin.
  eexists. split; [by apply process_message_on_log|].
  split; [by apply written_contents|].
  split.
  { intros Hnul. rewrite written_contents by done.
    by rewrite before_nul_id. }
  intros m' Hcmd.
  destruct Hlog as [Hh Hpath Hmode Hbuf Hpos].
  destruct Hin as [Hp (a & own & Hstr & Ha) Hlen Hheap].
  eexists. split.
  - apply (process_message_on_log _ h f); [split; simpl; try done|].
    + rewrite lookup_insert_ne; [done | congruence].
    + instantiate (1 := bs). split; simpl.
      * by rewrite lookup_insert_eq.
      * exists a, own. rewrite Hcmd. split; [done|].
        rewrite lookup_insert_ne; [done | congruence].
      * by rewrite Hcmd.
      * by rewrite Hcmd.
  - unfold written, command_name, file_contents; simpl. by rewrite Hcmd.
Qed.

Lemma process_message_logs_command_witness :
  log_handle Sample.w1 6 Sample.log0 /\
  incoming Sample.w1 1 Sample.msg_ping Sample.ping /\
  exists w',
    process_message (Ptr 6) (Ptr 1) Sample.w1 = Ok tt w' /\
    file_contents w' output_path
    = file_contents Sample.w1 output_path
        ++ before_nul (command_name Sample.msg_ping Sample.ping) ++ [x0a] /\
    (x00 ∉ command_name Sample.msg_ping Sample.ping ->
     file_contents w' output_path
     = file_contents Sample.w1 output_path
         ++ command_name Sample.msg_ping Sample.ping ++ [x0a]) /\
    (forall m', command m' = command Sample.msg_ping ->
       exists w'',
         process_message (Ptr 6) (Ptr 1)
           (set_objs (<[1%positive := OMsg m']> (w_objs Sample.w1)) Sample.w1)
         = Ok tt w'' /\
         w_disk w'' = w_disk w').
Proof.
  split; [sample_world|]. split; [sample_world|].
  apply (process_message_logs_command
           Sample.w1 6 Sample.log0 1 Sample.msg_ping Sample.ping);
    sample_world.
Defined.

(** C2: the struct [extension] registers exactly three hooks: its field
    [start] is [start], its field [stop] is [stop], its field
    [process_message] is [process_message], and it provides no other
    hook. *)
Theorem extension_hooks :
  extension !! "start"%string = Some (start_hook start) /\
  extension !! "stop"%string = Some (stop_hook stop) /\
  extension !! "process_message"%string
  = Some (process_message_hook process_message) /\
  dom extension
  = {[ "start"%string; "stop"%string; "process_message"%string ]} /\
  size extension = 3.
Proof.
  unfold extension.
  split; [reflexivity|]. split; [reflexivity|]. split; [reflexivity|].
  split.
  - rewrite !dom_list_to_map_L. simpl. set_solver.
  - reflexivity.
Qed.

(** [process_message] on a NULL state never gets past [fprintf]. *)
Lemma process_message_null_state msg w :
  process_message NULL msg w = Undef.
Proof.
  unfold process_message, bind.
  destruct (load_message msg w) as [m w1|]; [|done].
  destruct (strndup _ _ w1) as [cmd w2|]; [|done].
  unfold fprintf, bind.
  by destruct (format fmt_line [cmd] w2).
Qed.

(** C3: the hooks handle no failure.  [start] returns what
    [fopen("sample-output.txt", "w")] returns, NULL included when the
    open fails; [stop] and [process_message] use the state pointer
    unchecked, so that a NULL state, also the one a failed [start]
    returned, is undefined behaviour in both. *)
Theorem no_failure_handling w msg :
  start w = fopen output_path "w" w /\
  start (deny_log w) = Ok NULL (deny_log w) /\
  stop NULL w = Undef /\
  process_message NULL msg w = Undef /\
  (S <- start ;; stop S) (deny_log w) = Undef /\
  (S <- start ;; process_message S msg) (deny_log w) = Undef.
Proof.
  assert (start (deny_log w) = Ok NULL (deny_log w)) as Hdenied.
  { apply start_denied. simpl. set_solver. }
  split; [apply start_fopen|]. split; [done|]. split; [done|].
  split; [apply process_message_null_state|].
  rewrite !(bind_Ok _ _ _ _ _ Hdenied).
  split; [done | apply process_message_null_state].
Qed.

(** Messages with equal command fields have equal command names. *)
Lemma equal_command_fields w p1 m1 bs1 p2 m2 bs2 :
  incoming w p1 m1 bs1 -> incoming w p2 m2 bs2 ->
  command m1 = command m2 ->
  command_name m1 bs1 = command_name m2 bs2.
Proof.
  intros [_ (a1 & own1 & Hstr1 & Ha1) _ _] [_ (a2 & own2 & Hstr2 & Ha2) _ _].
  intros Hcmd. unfold command_name. rewrite Hcmd in *.
  assert (a1 = a2) as -> by congruence.
  assert (bs1 = bs2) as -> by congruence. done.
Qed.

(** C4: the message hook keeps no state from call to call.  Two calls on
    messages with equal command names write equal bytes, whatever
    messages each of the two runs processed before. *)
Theorem process_message_two_runs
    w1 h1 f1 before1 p1 m1 bs1 w2 h2 f2 before2 p2 m2 bs2 :
  log_handle w1 h1 f1 ->
  log_handle w2 h2 f2 ->
  Forall (deliverable w1) before1 ->
  Forall (deliverable w2) before2 ->
  incoming w1 p1 m1 bs1 ->
  incoming w2 p2 m2 bs2 ->
  command_name m1 bs1 = command_name m2 bs2 ->
  exists wa wb wa' wb' out,
    process_all (Ptr h1) before1 w1 = Ok tt wa /\
    process_all (Ptr h2) before2 w2 = Ok tt wb /\
    process_message (Ptr h1) (Ptr p1) wa = Ok tt wa' /\
    process_message (Ptr h2) (Ptr p2) wb = Ok tt wb' /\
    file_contents wa' output_path = file_contents wa output_path ++ out /\
    file_contents wb' output_path = file_contents wb output_path ++ out.
Proof.
  intros Hlog1 Hlog2 Hall1 Hall2 Hin1 Hin2 Hname.
  destruct (process_all_log before1 w1 h1 f1 Hlog1 Hall1)
    as (wa & fa & Hruna & Hloga & Hframea & _).
  destruct (process_all_log before2 w2 h2 f2 Hlog2 Hall2)
    as (wb & fb & Hrunb & Hlogb & Hframeb & _).
  assert (incoming wa p1 m1 bs1) as Hina
    by (eapply incoming_frame; [apply Hlog1 | done | done]).
  assert (incoming wb p2 m2 bs2) as Hinb
    by (eapply incoming_frame; [apply Hlog2 | done | done]).
  exists wa, wb. do 2 eexists.
  exists (before_nul (command_name m1 bs1) ++ [x0a]).
  split; [done|]. split; [done|].
  split; [by apply (process_message_on_log wa h1 fa)|].
  split; [by apply (process_message_on_log wb h2 fb)|].
  split; [by apply written_contents|].
  rewrite Hname. by apply written_contents.
Qed.

Lemma process_message_two_runs_witness :
  log_handle Sample.w1 6 Sample.log0 /\
  Forall (deliverable Sample.w1) [] /\
  Forall (deliverable Sample.w1) [Ptr 2; Ptr 1] /\
  incoming Sample.w1 1 Sample.msg_ping Sample.ping /\
  command_name Sample.msg_ping Sample.ping
  = command_name Sample.msg_ping Sample.ping /\
  exists wa wb wa' wb' out,
    process_all (Ptr 6) [] Sample.w1 = Ok tt wa /\
    process_all (Ptr 6) [Ptr 2; Ptr 1] Sample.w1 = Ok tt wb /\
    process_message (Ptr 6) (Ptr 1) wa = Ok tt wa' /\
    process_message (Ptr 6) (Ptr 1) wb = Ok tt wb' /\
    file_contents wa' output_path = file_contents wa output_path ++ out /\
    file_contents wb' output_path = file_contents wb output_path ++ out.
Proof.
  assert (Forall (deliverable Sample.w1) [Ptr 2; Ptr 1]) as Hbefore.
  { repeat constructor.
    - exists 2%positive, Sample.msg_nul, Sample.pi_nul_ng.
      split; [reflexivity | sample_world].
    - exists 1%positive, Sample.msg_ping, Sample.ping.
      split; [reflexivity | sample_world]. }
  split; [sample_world|]. split; [constructor|]. split; [exact Hbefore|].
  split; [sample_world|]. split; [reflexivity|].
  apply (process_message_two_runs
           Sample.w1 6 Sample.log0 [] 1 Sample.msg_ping Sample.ping
           Sample.w1 6 Sample.log0 [Ptr 2; Ptr 1] 1 Sample.msg_ping
           Sample.ping);
    [sample_world | sample_world | constructor | exact Hbefore
    | sample_world | sample_world | reflexivity].
Defined.

(** C5: [stop] closes the file handle that [start] returned and does
    nothing else: after any run of messages on that handle, the world
    after [stop] is the world before it without the stream; no file
    changes, no other object changes. *)
Theorem stop_only_closes w0 h w1 msgs :
  start w0 = Ok (Ptr h) w1 ->
  Forall (deliverable w1) msgs ->
  exists w2,
    process_all (Ptr h) msgs w1 = Ok tt w2 /\
    stop (Ptr h) w2 = Ok tt (closed w2 h) /\
    w_disk (closed w2 h) = w_disk w2 /\
    w_objs (closed w2 h) !! h = None /\
    (forall a, a <> h -> w_objs (closed w2 h) !! a = w_objs w2 !! a) /\
    w_denied (closed w2 h) = w_denied w2 /\
    w_heap_free (closed w2 h) = w_heap_free w2.
Proof.
  intros [-> ->]%start_Ok_inv Hall.
  destruct (process_all_log msgs _ _ _ (log_opened_handle w0) Hall)
    as (w2 & f2 & Hrun & Hlog & _ & _).
  exists w2. split; [done|]. split; [by eapply stop_log|].
  split; [done|]. split; [apply lookup_delete_eq|].
  split; [|done].
  intros a Ha. simpl. by rewrite lookup_delete_ne.
Qed.

Lemma stop_only_closes_witness :
  start Sample.w0 = Ok (Ptr 6) Sample.w1 /\
  Forall (deliverable Sample.w1) [Ptr 1] /\
  exists w2,
    process_all (Ptr 6) [Ptr 1] Sample.w1 = Ok tt w2 /\
    stop (Ptr 6) w2 = Ok tt (closed w2 6) /\
    w_disk (closed w2 6) = w_disk w2 /\
    w_objs (closed w2 6) !! 6%positive = None /\
    (forall a, a <> 6%positive ->
               w_objs (closed w2 6) !! a = w_objs w2 !! a) /\
    w_denied (closed w2 6) = w_denied w2 /\
    w_heap_free (closed w2 6) = w_heap_free w2.
Proof.
  assert (Forall (deliverable Sample.w1) [Ptr 1]) as Hmsgs.
  { repeat constructor. exists 1%positive, Sample.msg_ping, Sample.ping.
    split; [reflexivity | sample_world]. }
  split; [vm_compute; reflexivity|]. split; [exact Hmsgs|].
  apply (stop_only_closes Sample.w0 6 Sample.w1 [Ptr 1]);
    [vm_compute; reflexivity | exact Hmsgs].
Defined.

(** C6: [start] opens "sample-output.txt" in write mode, so whenever it
    succeeds the log file is empty immediately afterwards, whatever it
    held before; the log of the run that follows holds the lines of that
    run only. *)
Theorem start_empties_log w h w1 msgs :
  start w = Ok (Ptr h) w1 ->
  Forall (deliverable w1) msgs ->
  w_objs w1 !! h = Some (OStream (mkFILE output_path Mwrite 0 [])) /\
  w_disk w1 !! output_path = Some [] /\
  file_contents w1 output_path = [] /\
  exists w2,
    process_all (Ptr h) msgs w1 = Ok tt w2 /\
    file_contents w2 output_path = concat (map (logged_line w1) msgs).
Proof.
  intros [-> ->]%start_Ok_inv Hall.
  assert (Hlog := log_opened_handle w).
  assert (w_disk (log_opened w) !! output_path = Some []) as Hdisk
    by (simpl; by rewrite lookup_insert_eq).
  assert (file_contents (log_opened w) output_path = []) as Hfile
    by (unfold file_contents; by rewrite Hdisk).
  split; [apply Hlog|]. split; [done|]. split; [done|].
  destruct (process_all_log msgs _ _ _ Hlog Hall)
    as (w2 & f2 & Hrun & _ & _ & Hfile2).
  exists w2. split; [done|]. by rewrite Hfile2, Hfile.
Qed.

Lemma start_empties_log_witness :
  start Sample.w0 = Ok (Ptr 6) Sample.w1 /\
  Forall (deliverable Sample.w1) [Ptr 1] /\
  file_contents Sample.w0 output_path = ["O"; "L"; "D"; x0a]%byte /\
  w_objs Sample.w1 !! 6%positive
  = Some (OStream (mkFILE output_path Mwrite 0 [])) /\
  w_disk Sample.w1 !! output_path = Some [] /\
  file_contents Sample.w1 output_path = [] /\
  exists w2,
    process_all (Ptr 6) [Ptr 1] Sample.w1 = Ok tt w2 /\
    file_contents w2 output_path
    = concat (map (logged_line Sample.w1) [Ptr 1]).
Proof.
  assert (Forall (deliverable Sample.w1) [Ptr 1]) as Hmsgs.
  { repeat constructor. exists 1%positive, Sample.msg_ping, Sample.ping.
    split; [reflexivity | sample_world]. }
  split; [vm_compute; reflexivity|]. split; [exact Hmsgs|].
  split; [reflexivity|].
  apply (start_empties_log Sample.w0 6 Sample.w1 [Ptr 1]);
    [vm_compute; reflexivity | exact Hmsgs].
Defined.

(** C7: the line [process_message] logs is the part of the first
    [command.len] bytes of [command.str] that precedes the first NUL
    byte.  If there is a NUL byte at an index below [command.len], the
    line ends before the first such byte and the bytes after it are
    dropped; otherwise exactly [command.len] bytes are logged. *)
Theorem logged_line_stops_at_nul w h f p m bs :
  log_handle w h f ->
  incoming w p m bs ->
  exists w' line,
    process_message (Ptr h) (Ptr p) w = Ok tt w' /\
    file_contents w' output_path
    = file_contents w output_path ++ line ++ [x0a] /\
    line `prefix_of` take (N.to_nat (len (command m))) bs /\
    (x00 ∉ line) /\
    (forall i, i < N.to_nat (len (command m)) -> bs !! i = Some x00 ->
               length line <= i /\ bs !! (length line) = Some x00) /\
    ((forall i, i < N.to_nat (len (command m)) -> bs !! i <> Some x00) ->
     line = take (N.to_nat (len (command m))) bs /\
     length line = N.to_nat (len (command m))).
Proof.
  intros Hlog Hin.
  set (n := N.to_nat (len (command m))).
  set (line := before_nul (take n bs)).
  assert (line `prefix_of` take n bs) as Hpre by apply before_nul_prefix.
  assert (x00 ∉ line) as Hnul by apply before_nul_no_nul.
  exists (written w h f (line ++ [x0a])), line.
  split; [by apply process_message_on_log|].
  split; [by apply written_contents|].
  split; [done|]. split; [done|]. split.
  - intros i Hi Hbyte.
    assert (x00 ∈ take n bs) as Hin_take by (apply elem_of_take; eauto).
    apply before_nul_stops in Hin_take. fold line in Hin_take.
    apply lookup_take_Some in Hin_take as [Hstop _].
    split; [|done].
    destruct (decide (length line <= i)) as [|Hlt]; [done|].
    exfalso. apply Hnul.
    destruct (lookup_lt_is_Some_2 line i) as [c Hc]; [lia|].
    assert (take n bs !! i = Some c) as Hc'
      by (eapply prefix_lookup_Some; eauto).
    apply lookup_take_Some in Hc' as [Hc' _].
    assert (c = x00) as -> by congruence.
    by eapply list_elem_of_lookup_2.
  - intros Hnone.
    assert (x00 ∉ take n bs) as Hclean.
    { intros (i & Hbyte & Hi)%elem_of_take. by eapply Hnone. }
    unfold line. rewrite before_nul_id by done.
    split; [done|]. rewrite length_take.
    destruct Hin as [_ _ Hlen _]. fold n in Hlen. lia.
Qed.

Lemma logged_line_stops_at_nul_witness :
  log_handle Sample.w1 6 Sample.log0 /\
  incoming Sample.w1 2 Sample.msg_nul Sample.pi_nul_ng /\
  exists w' line,
    process_message (Ptr 6) (Ptr 2) Sample.w1 = Ok tt w' /\
    file_contents w' output_path
    = file_contents Sample.w1 output_path ++ line ++ [x0a] /\
    line `prefix_of` take (N.to_nat (len (command Sample.msg_nul)))
                          Sample.pi_nul_ng /\
    (x00 ∉ line) /\
    (forall i, i < N.to_nat (len (command Sample.msg_nul)) ->
               Sample.pi_nul_ng !! i = Some x00 ->
               length line <= i /\
               Sample.pi_nul_ng !! (length line) = Some x00) /\
    ((forall i, i < N.to_nat (len (command Sample.msg_nul)) ->
                Sample.pi_nul_ng !! i <> Some x00) ->
     line = take (N.to_nat (len (command Sample.msg_nul))) Sample.pi_nul_ng /\
     length line = N.to_nat (len (command Sample.msg_nul))).
Proof.
  split; [sample_world|]. split; [sample_world|].
  apply (logged_line_stops_at_nul
           Sample.w1 6 Sample.log0 2 Sample.msg_nul Sample.pi_nul_ng);
    sample_world.
Defined.

(** C8: [process_message] leaves its inputs unchanged.  The message, the
    bytes of its strings and every other object are the same afterwards,
    the state pointer still leads to the same stream on the same file
    with nothing pending, and nothing changed but the position of that
    stream and the contents of the log file, which grew by the line. *)
Theorem process_message_frame w h f p m bs :
  log_handle w h f ->
  incoming w p m bs ->
  exists w' line,
    process_message (Ptr h) (Ptr p) w = Ok tt w' /\
    w_objs w' !! p = Some (OMsg m) /\
    (forall a, a <> h -> w_objs w' !! a = w_objs w !! a) /\
    w_objs w' !! h
    = Some (OStream (mkFILE (f_path f) (f_mode f)
                            (f_pos f + length line) (f_buf f))) /\
    file_contents w' output_path = file_contents w output_path ++ line /\
    (forall path, path <> output_path ->
                  w_disk w' !! path = w_disk w !! path) /\
    w_denied w' = w_denied w /\
    w_heap_free w' = w_heap_free w.
Proof.
  intros Hlog Hin.
  set (line := before_nul (command_name m bs) ++ [x0a]).
  destruct (written_frame w h f line Hlog) as [Hobjs Hdisk Hden Hheap].
  exists (written w h f line), line.
  split; [by apply process_message_on_log|].
  split.
  { rewrite Hobjs; [apply Hin|].
    destruct Hlog as [Hh _ _ _ _], Hin as [Hp _ _ _]. congruence. }
  split; [done|]. split.
  { destruct Hlog as [_ _ -> -> _]. simpl. by rewrite lookup_insert_eq. }
  split; [by apply written_contents|]. done.
Qed.

Lemma process_message_frame_witness :
  log_handle Sample.w1 6 Sample.log0 /\
  incoming Sample.w1 1 Sample.msg_ping Sample.ping /\
  exists w' line,
    process_message (Ptr 6) (Ptr 1) Sample.w1 = Ok tt w' /\
    w_objs w' !! 1%positive = Some (OMsg Sample.msg_ping) /\
    (forall a, a <> 6%positive -> w_objs w' !! a = w_objs Sample.w1 !! a) /\
    w_objs w' !! 6%positive
    = Some (OStream (mkFILE (f_path Sample.log0) (f_mode Sample.log0)
                            (f_pos Sample.log0 + length line)
                            (f_buf Sample.log0))) /\
    file_contents w' output_path
    = file_contents Sample.w1 output_path ++ line /\
    (forall path, path <> output_path ->
                  w_disk w' !! path = w_disk Sample.w1 !! path) /\
    w_denied w' = w_denied Sample.w1 /\
    w_heap_free w' = w_heap_free Sample.w1.
Proof.
  split; [sample_world|]. split; [sample_world|].
  apply (process_message_frame
           Sample.w1 6 Sample.log0 1 Sample.msg_ping Sample.ping);
    sample_world.
Defined.

(** ** Beyond the claims: whole sessions *)

(** Objects that exist stay what they are when a stream is opened. *)
Lemma log_opened_incoming w p m bs :
  incoming w p m bs -> incoming (log_opened w) p m bs.
Proof.
  intros [Hp (a & own & Hstr & Ha) Hlen Hheap].
  split; try done.
  - simpl. rewrite lookup_insert_ne; [done|]. symmetry. by eapply fresh_addr_ne.
  - exists a, own. split; [done|]. simpl.
    rewrite lookup_insert_ne; [done|]. symmetry. by eapply fresh_addr_ne.
Qed.

Lemma log_opened_logged_line w msg :
  deliverable w msg -> logged_line (log_opened w) msg = logged_line w msg.
Proof.
  intros (p & m & bs & -> & [Hp (a & own & Hstr & Ha) _ _]).
  assert (p <> fresh_addr w) as Hpf by (by eapply fresh_addr_ne).
  assert (a <> fresh_addr w) as Haf by (by eapply fresh_addr_ne).
  unfold logged_line, message_at. simpl.
  rewrite lookup_insert_ne, Hp, Hstr by done.
  by rewrite lookup_insert_ne, Ha by done.
Qed.

(** X1: a whole session, [start], the messages, [stop], gives the store
    back as it found it: no stream and no block is left behind, the
    allocator has what it had, no other file changed, and the log holds
    the lines of the messages in the order of delivery. *)
Theorem session_round_trip w msgs :
  output_path ∉ w_denied w ->
  Forall (deliverable w) msgs ->
  exists h w1 w2 w3,
    start w = Ok (Ptr h) w1 /\
    process_all (Ptr h) msgs w1 = Ok tt w2 /\
    stop (Ptr h) w2 = Ok tt w3 /\
    w_objs w3 = w_objs w /\
    w_heap_free w3 = w_heap_free w /\
    w_denied w3 = w_denied w /\
    file_contents w3 output_path = concat (map (logged_line w) msgs) /\
    (forall path, path <> output_path ->
                  w_disk w3 !! path = w_disk w !! path).
Proof.
  intros Hd Hall.
  assert (Forall (deliverable (log_opened w)) msgs) as Hall1.
  { eapply Forall_impl; [exact Hall|].
    intros msg (p & m & bs & -> & Hin).
    exists p, m, bs. split; [done | by apply log_opened_incoming]. }
  destruct (process_all_log msgs _ _ _ (log_opened_handle w) Hall1)
    as (w2 & f2 & Hrun & Hlog & [Hobjs Hdisk Hden Hheap] & Hfile).
  exists (fresh_addr w), (log_opened w), w2, (closed w2 (fresh_addr w)).
  split; [by apply start_allowed|]. split; [done|].
  split; [by eapply stop_log|].
  split.
  { apply map_eq. intros a. simpl.
    destruct (decide (a = fresh_addr w)) as [->|Hne].
    - by rewrite lookup_delete_eq, fresh_addr_free.
    - rewrite lookup_delete_ne, Hobjs by done. simpl.
      by rewrite lookup_insert_ne. }
  split; [done|]. split; [done|]. split.
  - change (file_contents (closed w2 (fresh_addr w)) output_path)
      with (file_contents w2 output_path).
    rewrite Hfile. unfold file_contents at 1; simpl.
    rewrite lookup_insert_eq. simpl.
    apply (f_equal (@concat byte)), Forall_fmap_ext_1.
    eapply Forall_impl; [exact Hall|].
    intros msg. apply log_opened_logged_line.
  - intros path Hp. simpl. rewrite Hdisk by done. simpl.
    by rewrite lookup_insert_ne.
Qed.

Lemma session_round_trip_witness :
  (output_path ∉ w_denied Sample.w0) /\
  Forall (deliverable Sample.w0) [Ptr 1; Ptr 2] /\
  exists h w1 w2 w3,
    start Sample.w0 = Ok (Ptr h) w1 /\
    process_all (Ptr h) [Ptr 1; Ptr 2] w1 = Ok tt w2 /\
    stop (Ptr h) w2 = Ok tt w3 /\
    w_objs w3 = w_objs Sample.w0 /\
    w_heap_free w3 = w_heap_free Sample.w0 /\
    w_denied w3 = w_denied Sample.w0 /\
    file_contents w3 output_path
    = concat (map (logged_line Sample.w0) [Ptr 1; Ptr 2]) /\
    (forall path, path <> output_path ->
                  w_disk w3 !! path = w_disk Sample.w0 !! path).
Proof.
  assert (output_path ∉ w_denied Sample.w0) as Hd by (simpl; set_solver).
  assert (Forall (deliverable Sample.w0) [Ptr 1; Ptr 2]) as Hmsgs.
  { repeat constructor.
    - exists 1%positive, Sample.msg_ping, Sample.ping.
      split; [reflexivity | sample_world].
    - exists 2%positive, Sample.msg_nul, Sample.pi_nul_ng.
      split; [reflexivity | sample_world]. }
  split; [exact Hd|]. split; [exact Hmsgs|].
  apply (session_round_trip Sample.w0 [Ptr 1; Ptr 2]);
    [exact Hd | exact Hmsgs].
Defined.

(** X2: a message logs an empty line exactly when its command has length
    zero or starts with a NUL byte. *)
Theorem empty_line_iff w h f p m bs :
  log_handle w h f ->
  incoming w p m bs ->
  exists w',
    process_message (Ptr h) (Ptr p) w = Ok tt w' /\
    (file_contents w' output_path = file_contents w output_path ++ [x0a]
     <-> len (command m) = 0%N \/ bs !! 0 = Some x00).
Proof.
  intros Hlog Hin. eexists. split; [by apply process_message_on_log|].
  rewrite written_contents by done.
  destruct Hin as [_ _ Hlen _]. unfold command_name.
  destruct (N.to_nat (len (command m))) as [|n] eqn:Hn.
  - simpl. split; [intros _; left; lia | done].
  - destruct bs as [|c rest]; simpl in *; [lia|].
    case_decide as Hc.
    + subst c. split; [by right | done].
    + split.
      * intros Heq%app_inv_head. apply (f_equal length) in Heq.
        simpl in Heq. rewrite length_app in Heq. simpl in Heq. lia.
      * intros [Hz | [= Hz]]; [lia | done].
Qed.

Lemma empty_line_iff_witness :
  log_handle Sample.w1 6 Sample.log0 /\
  incoming Sample.w1 1 Sample.msg_ping Sample.ping /\
  exists w',
    process_message (Ptr 6) (Ptr 1) Sample.w1 = Ok tt w' /\
    (file_contents w' output_path
     = file_contents Sample.w1 output_path ++ [x0a]
     <-> len (command Sample.msg_ping) = 0%N \/
         Sample.ping !! 0 = Some x00).
Proof.
  split; [sample_world|]. split; [sample_world|].
  apply (empty_line_iff Sample.w1 6 Sample.log0 1 Sample.msg_ping Sample.ping);
    sample_world.
Defined.

(** The run that follows a successful [start]. *)
Lemma run_after_start w h w1 msgs :
  start w = Ok (Ptr h) w1 ->
  Forall (deliverable w1) msgs ->
  exists w2 f2,
    process_all (Ptr h) msgs w1 = Ok tt w2 /\
    log_handle w2 h f2 /\
    file_contents w2 output_path = concat (map (logged_line w1) msgs).
Proof.
  intros [-> ->]%start_Ok_inv Hall.
  destruct (process_all_log msgs _ _ _ (log_opened_handle w) Hall)
    as (w2 & f2 & Hrun & Hlog & _ & Hfile).
  exists w2, f2. split; [done|]. split; [done|].
  rewrite Hfile. unfold file_contents at 1; simpl.
  by rewrite lookup_insert_eq.
Qed.

Lemma newlines_app l1 l2 : newlines (l1 ++ l2) = newlines l1 + newlines l2.
Proof. unfold newlines. by rewrite filter_app, length_app. Qed.

Lemma newlines_none l : x0a ∉ l -> newlines l = 0.
Proof.
  unfold newlines. induction l as [|c l IH]; [done|].
  rewrite not_elem_of_cons. intros [Hc Hl].
  rewrite filter_cons_False by congruence. by apply IH.
Qed.

Lemma plain_deliverable w msg : plain w msg -> deliverable w msg.
Proof. intros (p & m & bs & -> & Hin & _). by exists p, m, bs. Qed.

Lemma plain_one_line w msg : plain w msg -> newlines (logged_line w msg) = 1.
Proof.
  intros (p & m & bs & -> & Hin & Hnl).
  destruct Hin as [Hp (a & own & Hstr & Ha) _ _].
  unfold logged_line, message_at. rewrite Hp, Hstr, Ha.
  rewrite newlines_app, newlines_none; [done|].
  intros Hcut. apply Hnl.
  destruct (before_nul_prefix (command_name m bs)) as [r Hr].
  rewrite Hr. apply elem_of_app. by left.
Qed.

(** X3: one line per message.  After [start] and a run of messages whose
    command names hold no newline byte, the log holds as many newline
    bytes as messages were delivered, and it ends with one unless no
    message came. *)
Theorem one_line_per_message w h w1 msgs :
  start w = Ok (Ptr h) w1 ->
  Forall (plain w1) msgs ->
  exists w2,
    process_all (Ptr h) msgs w1 = Ok tt w2 /\
    newlines (file_contents w2 output_path) = length msgs /\
    (msgs <> [] -> last (file_contents w2 output_path) = Some x0a).
Proof.
  intros Hstart Hplain.
  assert (Forall (deliverable w1) msgs) as Hall
    by (eapply Forall_impl; [exact Hplain | apply plain_deliverable]).
  destruct (run_after_start w h w1 msgs Hstart Hall)
    as (w2 & f2 & Hrun & _ & Hfile).
  exists w2. split; [done|]. rewrite Hfile. clear Hrun Hfile Hstart Hall.
  split.
  - induction Hplain as [|msg rest Hmsg _ IH]; [done|].
    simpl. rewrite newlines_app, IH, plain_one_line by done. done.
  - intros Hne. destruct (exists_last Hne) as [front [lastmsg ->]].
    apply Forall_app in Hplain as [_ Hlast].
    apply Forall_inv in Hlast.
    destruct Hlast as (p & m & bs & -> & [Hp (a & own & Hstr & Ha) _ _] & _).
    rewrite map_app, concat_app. simpl. rewrite app_nil_r.
    unfold logged_line at 2, message_at. rewrite Hp, Hstr, Ha.
    rewrite !app_assoc. apply last_snoc.
Qed.

Lemma one_line_per_message_witness :
  start Sample.w0 = Ok (Ptr 6) Sample.w1 /\
  Forall (plain Sample.w1) [Ptr 1; Ptr 1] /\
  exists w2,
    process_all (Ptr 6) [Ptr 1; Ptr 1] Sample.w1 = Ok tt w2 /\
    newlines (file_contents w2 output_path) = length [Ptr 1; Ptr 1] /\
    ([Ptr 1; Ptr 1] <> [] -> last (file_contents w2 output_path) = Some x0a).
Proof.
  assert (plain Sample.w1 (Ptr 1)) as Hping.
  { exists 1%positive, Sample.msg_ping, Sample.ping.
    split; [reflexivity|]. split; [sample_world|].
    apply (bool_decide_unpack _). vm_compute. exact I. }
  assert (Forall (plain Sample.w1) [Ptr 1; Ptr 1]) as Hmsgs
    by (repeat constructor; exact Hping).
  split; [vm_compute; reflexivity|]. split; [exact Hmsgs|].
  apply (one_line_per_message Sample.w0 6 Sample.w1 [Ptr 1; Ptr 1]);
    [vm_compute; reflexivity | exact Hmsgs].
Defined.

(** ** Beyond the claims: misuse of the hooks *)

(** Printing a line through a pointer that is not an open stream is
    undefined, whatever the message. *)
Lemma process_message_not_stream w a msg :
  (forall f, w_objs w !! a <> Some (OStream f)) ->
  process_message (Ptr a) msg w = Undef.
Proof.
  intros Hns. unfold process_message, bind.
  destruct (load_message msg w) as [m w1|] eqn:Hload; [|done].
  assert (w1 = w) as ->.
  { unfold load_message in Hload. destruct msg as [|p]; [done|].
    destruct (w_objs w !! p) as [[| |]|]; congruence. }
  destruct (strndup _ _ w) as [cmd w2|] eqn:Hdup; [|done].
  assert (forall f, w_objs w2 !! a <> Some (OStream f)) as Hns2.
  { unfold strndup in Hdup. destruct (str (command m)) as [|s]; [done|].
    destruct (w_objs w !! s) as [[| |]|]; try done.
    destruct (strnlen _ _); [|done].
    unfold alloc_bytes in Hdup. case_decide.
    - injection Hdup as _ <-. intros f. simpl.
      destruct (decide (a = fresh_addr w)) as [->|Hne].
      + by rewrite lookup_insert_eq.
      + rewrite lookup_insert_ne by done. apply Hns.
    - by injection Hdup as _ <-. }
  unfold fprintf, bind.
  destruct (format fmt_line [cmd] w2) as [out w3|] eqn:Hfmt; [|done].
  assert (w3 = w2) as ->.
  { simpl in Hfmt. unfold bind, read_string, ret in Hfmt.
    destruct cmd as [|c]; [done|].
    destruct (w_objs w2 !! c) as [[| |]|]; try done.
    destruct (c_string bs); congruence. }
  unfold fputs_bytes.
  destruct (w_objs w2 !! a) as [[| |]|] eqn:Ha; try done.
  by destruct (Hns2 f).
Qed.

(** X4: [stop] leaves the state pointer dangling.  After [stop], a second
    [stop] and any further [process_message] on the same state are
    undefined behaviour. *)
Theorem hooks_after_stop w h w1 msgs :
  start w = Ok (Ptr h) w1 ->
  Forall (deliverable w1) msgs ->
  exists w2 w3,
    process_all (Ptr h) msgs w1 = Ok tt w2 /\
    stop (Ptr h) w2 = Ok tt w3 /\
    stop (Ptr h) w3 = Undef /\
    (forall msg, process_message (Ptr h) msg w3 = Undef).
Proof.
  intros Hstart Hall.
  destruct (run_after_start w h w1 msgs Hstart Hall)
    as (w2 & f2 & Hrun & Hlog & _).
  exists w2, (closed w2 h). split; [done|].
  split; [by eapply stop_log|].
  assert (w_objs (closed w2 h) !! h = None) as Hgone
    by apply lookup_delete_eq.
  split.
  - unfold stop, bind, fclose. by rewrite Hgone.
  - intros msg. apply process_message_not_stream.
    intros f. by rewrite Hgone.
Qed.

Lemma hooks_after_stop_witness :
  start Sample.w0 = Ok (Ptr 6) Sample.w1 /\
  Forall (deliverable Sample.w1) [Ptr 1] /\
  exists w2 w3,
    process_all (Ptr 6) [Ptr 1] Sample.w1 = Ok tt w2 /\
    stop (Ptr 6) w2 = Ok tt w3 /\
    stop (Ptr 6) w3 = Undef /\
    (forall msg, process_message (Ptr 6) msg w3 = Undef).
Proof.
  assert (Forall (deliverable Sample.w1) [Ptr 1]) as Hmsgs.
  { repeat constructor. exists 1%positive, Sample.msg_ping, Sample.ping.
    split; [reflexivity | sample_world]. }
  split; [vm_compute; reflexivity|]. split; [exact Hmsgs|].
  apply (hooks_after_stop Sample.w0 6 Sample.w1 [Ptr 1]);
    [vm_compute; reflexivity | exact Hmsgs].
Defined.


(** ** Beyond the claims: lengths the host states wrongly *)

Lemma strnlen_Some bs n k :
  strnlen bs n = Some k ->
  k <= length bs /\ k <= n /\ x00 ∉ take k bs.
Proof.
  revert bs k; induction n as [|n IH]; intros bs k; simpl.
  - intros [= <-]. split; [lia|]. split; [lia|]. apply not_elem_of_nil.
  - destruct bs as [|c rest]; [done|].
    case_decide as Hc.
    + intros [= <-]. simpl. split; [lia|]. split; [lia|].
      apply not_elem_of_nil.
    + destruct (strnlen rest n) as [k'|] eqn:Hk; [|done].
      intros [= <-]. destruct (IH rest k' Hk) as (Hlen & Hn & Hnul).
      simpl. split; [lia|]. split; [lia|].
      apply not_elem_of_cons. split; [by intros Heq; apply Hc | done].
Qed.

Lemma strnlen_c_string bs s n :
  c_string bs = Some s ->
  strnlen bs n = Some (length (take n s)) /\
  take (length (take n s)) bs = take n s.
Proof.
  revert bs s; induction n as [|n IH]; intros bs s Hs; [done|].
  destruct bs as [|c rest]; [done|]. simpl in *.
  case_decide as Hc.
  - injection Hs as <-. done.
  - destruct (c_string rest) as [s'|] eqn:Hrest; [|done].
    injection Hs as <-. destruct (IH rest s' Hrest) as [-> Htake].
    simpl. by rewrite Htake.
Qed.

Lemma strnlen_overrun bs n :
  x00 ∉ bs -> length bs < n -> strnlen bs n = None.
Proof.
  revert bs; induction n as [|n IH]; intros bs Hnul Hlen; [lia|].
  destruct bs as [|c rest]; [done|]. simpl in *.
  rewrite not_elem_of_cons in Hnul. destruct Hnul as [Hc Hrest].
  case_decide; [congruence|]. rewrite IH; [done | done | lia].
Qed.

(** One call of the message hook, by what [strnlen] finds. *)
Lemma process_message_run_strnlen w h f p m a own bs k :
  w_objs w !! h = Some (OStream f) ->
  f_mode f = Mwrite ->
  w_objs w !! p = Some (OMsg m) ->
  str (command m) = Ptr a ->
  w_objs w !! a = Some (OBytes own bs) ->
  strnlen bs (N.to_nat (len (command m))) = Some k ->
  k + 1 <= w_heap_free w ->
  process_message (Ptr h) (Ptr p) w
  = Ok tt (written w h f (f_buf f ++ take k bs ++ [x0a])).
Proof.
  intros Hh Hmode Hp Hstr Ha Hk Hheap.
  destruct (strnlen_Some _ _ _ Hk) as (Hlen & _ & Hnul).
  set (c := fresh_addr w).
  assert (h <> c) as Hhc by (by eapply fresh_addr_ne).
  assert (length (take k bs ++ [x00]) = k + 1) as Hsize.
  { rewrite length_app, length_take. simpl. lia. }
  unfold process_message.
  rewrite (bind_Ok _ _ _ _ _ (load_message_Ok w p m Hp)), Hstr.
  erewrite bind_Ok; last first.
  { unfold strndup. rewrite Ha, Hk. unfold alloc_bytes.
    rewrite decide_True by lia. reflexivity. }
  fold c.
  erewrite bind_Ok; last first.
  { eapply (fprintf_line_Ok _ h f c true (take k bs) []); simpl.
    - by rewrite lookup_insert_ne.
    - done.
    - by rewrite lookup_insert_eq.
    - done. }
  erewrite bind_Ok; last first.
  { apply fflush_Ok. simpl. by rewrite lookup_insert_eq. }
  rewrite flush_stream_write;
    [|done|simpl; by destruct (f_buf f), (take k bs)].
  erewrite free_Ok; last first.
  { simpl. rewrite !lookup_insert_ne by done. by rewrite lookup_insert_eq. }
  f_equal.
  unfold written, set_heap_free, set_objs, set_disk, file_contents; simpl.
  f_equal.
  - rewrite insert_insert_eq, delete_insert_ne by done.
    rewrite delete_insert_eq. f_equal. apply delete_id, fresh_addr_free.
  - rewrite Hsize. lia.
Qed.

(** X6: for a command that is a NUL-terminated string, the stated length
    only caps the line.  Whatever [len] is, also beyond the end of the
    array, the line is the first [len] bytes of the string, or the whole
    string when it is shorter. *)
Theorem length_caps_c_string w h f p m a own bs s :
  log_handle w h f ->
  w_objs w !! p = Some (OMsg m) ->
  str (command m) = Ptr a ->
  w_objs w !! a = Some (OBytes own bs) ->
  c_string bs = Some s ->
  length s + 1 <= w_heap_free w ->
  exists w',
    process_message (Ptr h) (Ptr p) w = Ok tt w' /\
    file_contents w' output_path
    = file_contents w output_path
        ++ take (N.to_nat (len (command m))) s ++ [x0a].
Proof.
  intros Hlog Hp Hstr Ha Hs Hheap.
  destruct (strnlen_c_string bs s (N.to_nat (len (command m))) Hs)
    as [Hk Htake].
  assert (length (take (N.to_nat (len (command m))) s) <= length s)
    by (rewrite length_take; lia).
  eexists. split.
  - destruct Hlog as [Hh _ Hmode _ _].
    eapply process_message_run_strnlen; eauto. lia.
  - rewrite Htake. destruct Hlog as [Hh Hpath Hmode Hbuf Hpos].
    rewrite Hbuf. simpl.
    by apply written_contents.
Qed.

Lemma length_caps_c_string_witness :
  log_handle Overlong.w 5 Sample.log0 /\
  c_string Sample.pi_nul_ng = Some ["P"; "I"]%byte /\
  exists w',
    process_message (Ptr 5) (Ptr 1) Overlong.w = Ok tt w' /\
    file_contents w' output_path
    = file_contents Overlong.w output_path
        ++ take (N.to_nat (len (command Overlong.msg_capped)))
                ["P"; "I"]%byte ++ [x0a].
Proof.
  split; [sample_world|]. split; [reflexivity|].
  apply (length_caps_c_string Overlong.w 5 Sample.log0 1
           Overlong.msg_capped 2 false Sample.pi_nul_ng);
    [sample_world | reflexivity | reflexivity | reflexivity | reflexivity
    | vm_compute; lia].
Defined.

(** X7: the stated length is trusted.  When it exceeds the bytes
    readable at [command.str] and none of them is NUL, the call is
    undefined behaviour, whatever the state. *)
Theorem overlong_command_undefined S w p m a own bs :
  w_objs w !! p = Some (OMsg m) ->
  str (command m) = Ptr a ->
  w_objs w !! a = Some (OBytes own bs) ->
  x00 ∉ bs ->
  length bs < N.to_nat (len (command m)) ->
  process_message S (Ptr p) w = Undef.
Proof.
  intros Hp Hstr Ha Hnul Hlen. unfold process_message.
  rewrite (bind_Ok _ _ _ _ _ (load_message_Ok w p m Hp)), Hstr.
  apply bind_Undef. unfold strndup.
  by rewrite Ha, strnlen_overrun.
Qed.

Lemma overlong_command_undefined_witness :
  (x00 ∉ Sample.ping) /\
  length Sample.ping < N.to_nat (len (command Overlong.msg_overrun)) /\
  process_message (Ptr 5) (Ptr 3) Overlong.w = Undef.
Proof.
  assert (x00 ∉ Sample.ping) as Hnul
    by (apply (bool_decide_unpack _); vm_compute; exact I).
  split; [exact Hnul|]. split; [vm_compute; lia|].
  apply (overlong_command_undefined (Ptr 5) Overlong.w 3
           Overlong.msg_overrun 4 false Sample.ping);
    [reflexivity | reflexivity | reflexivity | exact Hnul | vm_compute; lia].
Defined.

Lemma process_message_out_of_memory_witness :
  N.to_nat (len (command Sample.msg_ping)) <= length Sample.ping /\
  process_message (Ptr 6) (Ptr 1) (set_heap_free 0 Sample.w1) = Undef.
Proof.
  split; [vm_compute; lia|].
  apply (process_message_out_of_memory (Ptr 6) (set_heap_free 0 Sample.w1) 1
           Sample.msg_ping 3 false Sample.ping);
    [reflexivity | reflexivity | reflexivity | vm_compute; lia | reflexivity].
Defined.
